(** * The users table of the dashboard

    A shallow embedding of
    [app/dashboard/src/components/users-table/users-table.tsx]: the
    [UsersTable] component, its two event handlers [handleSort] and
    [handleStatusFilter], and the effect that asks the dashboard store to
    refetch the users when the [filters] object changes.

    JavaScript strings are embedded as [string]; only equality,
    concatenation and emptiness of strings are used by the component, so
    the size of the character set plays no role. *)

From Stdlib Require Import Ascii String.
From stdpp Require Import base option list gmap strings.

Open Scope string_scope.

(** ** JavaScript values *)

(** The values the component reads from and writes to the filters record:
    a field is a string or [undefined]. *)
Inductive jsval : Type :=
  | JUndefined
  | JStr (s : string).

#[global] Instance jsval_eq_dec : EqDecision jsval.
Proof. solve_decision. Defined.

(** [a === b] on these values: same kind and, for strings, same contents. *)
Definition strict_eq (a b : jsval) : bool := bool_decide (a = b).

(** An object literal or a record: its own properties by name.  A property
    may be present and hold [undefined], as in [{ status: undefined }]. *)
Abbreviation props := (gmap string jsval).

(** [o.k]: reading a property that the object lacks gives [undefined]. *)
Definition get (o : props) (k : string) : jsval := default JUndefined (o !! k).

(** Objects have an identity.  [Object.is] on two objects compares the
    references and never looks at the contents. *)
Definition loc := positive.

Record obj : Type := Obj { addr : loc; fields : props }.

Definition Object_is (a b : obj) : bool := bool_decide (addr a = addr b).

(** ** Calls to the dashboard store and the execution monad *)

(** The two operations of the store that the component invokes. *)
Inductive call : Type :=
  | OnFilterChange (partial : props)
  | RefetchUsers.

#[global] Instance call_eq_dec : EqDecision call.
Proof. solve_decision. Defined.

Inductive exn : Type := TypeError.

Inductive completion (A : Type) : Type :=
  | Normal (a : A)
  | Throw (e : exn).

Arguments Normal {A} a.
Arguments Throw {A} e.

(** A piece of JavaScript runs to a completion and leaves the trace of the
    store calls it made, oldest first. *)
Definition js (A : Type) : Type := list call * completion A.

#[global] Instance js_ret : MRet js := λ A a, ([], Normal a).

#[global] Instance js_bind : MBind js := λ A B k m,
  match m with
  | (tr, Normal a) => let (tr2, r) := k a in ((tr ++ tr2)%list, r)
  | (tr, Throw e) => (tr, Throw e)
  end.

Definition throw {A : Type} (e : exn) : js A := ([], Throw e).

Definition perform (c : call) : js unit := ([c], Normal tt).

Definition trace {A : Type} (m : js A) : list call := m.1.

Definition completes {A : Type} (m : js A) : bool :=
  match m.2 with Normal _ => true | Throw _ => false end.

(** [onFilterChange(partial)] and [useDashboard.getState().refetchUsers()]. *)
Definition onFilterChange (partial : props) : js unit :=
  perform (OnFilterChange partial).

Definition refetchUsers : js unit := perform RefetchUsers.

(** [v.length]: a string has its length; reading a property of [undefined]
    raises a [TypeError]. *)
Definition get_length (v : jsval) : js nat :=
  match v with
  | JStr s => mret (String.length s)
  | JUndefined => throw TypeError
  end.

(** ** The event handlers *)

(** [filters.sort] *)
Definition sort_of (filters : obj) : jsval := get (fields filters) "sort".

(** [handleSort] closes over the [filters] of the render that created it. *)
Definition handleSort (filters : obj) (column : string) : js unit :=
  let newSort :=
    if strict_eq (sort_of filters) (JStr column) then
      "-" +:+ column
    else if strict_eq (sort_of filters) (JStr ("-" +:+ column)) then
      "-created_at"
    else
      column in
  onFilterChange {[ "sort" := JStr newSort ]}.

Definition handleStatusFilter (value : jsval) : js unit :=
  let newValue := if strict_eq value (JStr "0") then JStr "" else value in
  len ← get_length value;
  onFilterChange {[ "status" := if bool_decide (0 < len)%nat then newValue else JUndefined ]}.

(** The only filter update a handler run made, if it made exactly one call
    and that call was [onFilterChange]. *)
Definition emitted {A : Type} (m : js A) : option props :=
  match trace m with
  | [OnFilterChange p] => Some p
  | _ => None
  end.

(** One click on [column] when the current sort is [s]: the [sort] field of
    the update that [handleSort] emits. *)
Definition click_sort (column : string) (s : jsval) : jsval :=
  match emitted (handleSort (Obj 1%positive {[ "sort" := s ]}) column) with
  | Some p => get p "sort"
  | None => s
  end.

(** ** Sort descriptors *)

(** A bare name: one that does not begin with the negation marker. *)
Definition is_bare (s : string) : bool :=
  match s with
  | EmptyString => true
  | String a _ => negb (bool_decide (a = "-"%char))
  end.

(** A sort descriptor: a bare field name, or one negation marker followed
    by a bare field name. *)
Definition valid_sort (s : string) : bool :=
  is_bare s ||
  match s with
  | EmptyString => false
  | String a r => bool_decide (a = "-"%char) && is_bare r
  end.

(** ** The column builder *)

Inductive direction : Type := Ltr | Rtl.

Inductive sort_state : Type := Unsorted | Ascending | Descending.

(** Modelled from the spec: the column descriptor built by [setupColumns]
    of [components/users-table/columns], which is not among the sources:
    key, header label, sort state, click handler, optional filter control. *)
Record column : Type := Column {
  key : string;
  header : string;
  sorting : sort_state;
  onClick : js unit;
  filterControl : option (jsval → js unit)
}.

(** The argument record of the call [setupColumns({ t, dir, handleSort,
    filters, handleStatusFilter })], as the component builds it. *)
Record setupColumnsArgs : Type := SetupColumnsArgs {
  arg_t : string → string;
  arg_dir : direction;
  arg_handleSort : string → js unit;
  arg_filters : obj;
  arg_handleStatusFilter : jsval → js unit
}.

(** Modelled from the spec: how a column stands in the current sort; the
    sort descriptor names a field, with the negation marker for descending. *)
Definition sort_state_of (filters : obj) (k : string) : sort_state :=
  if strict_eq (sort_of filters) (JStr k) then Ascending
  else if strict_eq (sort_of filters) (JStr ("-" +:+ k)) then Descending
  else Unsorted.

(** Modelled from the spec: [setupColumns] of
    [components/users-table/columns], which is not among the sources.  A
    pure function of the translation function, the text direction, the two
    handlers and the current filters, giving the ordered column descriptors.
    The spec does not list the columns: [schema] gives their keys in order,
    each with whether it carries the status filter control.  The handlers
    are stored in the descriptors and not invoked. *)
Definition setupColumns (schema : list (string * bool)) (a : setupColumnsArgs)
  : js (list column) :=
  mret ((λ c : string * bool,
          {| key := c.1;
             header := arg_t a c.1;
             sorting := sort_state_of (arg_filters a) c.1;
             onClick := arg_handleSort a c.1;
             filterControl :=
               if c.2 then Some (arg_handleStatusFilter a) else None |})
        <$> schema).

(** ** The component *)

Section UsersTable.

(** The user records are opaque to the component. *)
Context {User : Type}.

(** What the surrounding hooks give a render: [useTranslation] and
    [useDirDetection]. *)
Variable t : string → string.
Variable dir : direction.
Variable schema : list (string * bool).

(** The part of the dashboard store that [useDashboard()] hands out. *)
Record dashboard : Type := Dashboard {
  filters : obj;
  users : list User
}.

#[local] Unset Elimination Schemes.
Inductive element : Type :=
  | UsersStatistics
  | Filters
  | DataTable (columns : list column) (data : list User)
  | div (children : list element).
#[local] Set Elimination Schemes.

(** The dependency array an effect was last run or skipped with; a
    component that has not been mounted has none. *)
Record hooks : Type := Hooks { effect_deps : option (list obj) }.

(** [useEffect(effect, deps)]: the effect to run once the render is
    committed.  It runs on mount, and on an update when the dependency
    arrays differ in some position under [Object.is]. *)
Definition deps_changed (old new : list obj) : bool :=
  existsb (λ p : obj * obj, negb (Object_is p.1 p.2)) (zip old new).

Definition useEffect (effect : js unit) (deps : list obj) (h : hooks) : js unit :=
  match effect_deps h with
  | None => effect
  | Some old => if deps_changed old deps then effect else mret tt
  end.

(** Whether the effect that a render with dependencies [deps] declares runs
    at its commit. *)
Definition effect_runs (deps : list obj) (h : hooks) : bool :=
  match effect_deps h with
  | None => true
  | Some old => deps_changed old deps
  end.

Record rendered : Type := Rendered {
  memo : hooks;
  pending : js unit;
  view : element
}.

Definition UsersTable (st : dashboard) (h : hooks) : js rendered :=
  let filters := filters st in
  let users := users st in
  let effect := useEffect refetchUsers [filters] h in
  let handleSort := handleSort filters in
  let handleStatusFilter := handleStatusFilter in
  columns ← setupColumns schema
    {| arg_t := t;
       arg_dir := dir;
       arg_handleSort := handleSort;
       arg_filters := filters;
       arg_handleStatusFilter := handleStatusFilter |};
  mret {| memo := {| effect_deps := Some [filters] |};
          pending := effect;
          view := div [UsersStatistics; Filters; DataTable columns users] |}.

(** One render and its commit: the component function runs, then the
    pending effect. *)
Definition commit (st : dashboard) (h : hooks) : js hooks :=
  r ← UsersTable st h;
  _ ← pending r;
  mret (memo r).

Definition mount (st : dashboard) : js hooks :=
  commit st {| effect_deps := None |}.

(** The later renders of a mounted component, one per store snapshot. *)
Fixpoint updates (sts : list dashboard) (h : hooks) : js hooks :=
  match sts with
  | [] => mret h
  | st :: rest => h' ← commit st h; updates rest h'
  end.

Definition lifetime (st0 : dashboard) (sts : list dashboard) : js hooks :=
  h ← mount st0; updates sts h.

End UsersTable.

(** The number of renders, in a run of renders with the filters objects
    [fs] that follows a render with the filters object [prev], whose filters
    object is not the object of the render before. *)
Fixpoint reference_changes (prev : obj) (fs : list obj) : nat :=
  match fs with
  | [] => 0
  | f :: rest => (if Object_is prev f then 0 else 1) + reference_changes f rest
  end.

(** * Properties *)

(** ** The execution monad *)

Lemma js_bind_ret_l {A B : Type} (a : A) (k : A → js B) : (mret a ≫= k) = k a.
Proof. unfold mret, js_ret, mbind, js_bind. by destruct (k a). Qed.

Lemma js_bind_ret_r {A : Type} (m : js A) : (m ≫= mret) = m.
Proof.
  destruct m as [tr [a | e]]; cbn; [| done].
  by rewrite app_nil_r.
Qed.

Lemma js_bind_assoc {A B C : Type} (m : js A) (k : A → js B) (k' : B → js C) :
  ((m ≫= k) ≫= k') = (m ≫= λ a, k a ≫= k').
Proof.
  destruct m as [tr [a | e]]; cbn; [| done].
  destruct (k a) as [tr1 [b | e]]; cbn; [| done].
  destruct (k' b) as [tr2 r]. by rewrite app_assoc.
Qed.

Lemma trace_bind_normal {A B : Type} (m : js A) (k : A → js B) (tr : list call) (a : A) :
  m = (tr, Normal a) → trace (m ≫= k) = (tr ++ trace (k a))%list.
Proof. intros ->. unfold trace. cbn. by destruct (k a). Qed.

(** ** Strings and the negation marker *)

Lemma negated_cons (c : string) : "-" +:+ c = String "-" c.
Proof. reflexivity. Qed.

Lemma negated_ne (c : string) : "-" +:+ c ≠ c.
Proof.
  induction c as [| a c IH]; [done |].
  rewrite !negated_cons in *. intros [= <- H]. by apply IH.
Qed.

Lemma negated_inj (c d : string) : "-" +:+ c = "-" +:+ d → c = d.
Proof. rewrite !negated_cons. congruence. Qed.

Lemma get_singleton (k : string) (v : jsval) : get {[ k := v ]} k = v.
Proof. unfold get. by rewrite lookup_singleton_eq. Qed.

Lemma sort_of_singleton (l : loc) (s : jsval) : sort_of (Obj l {[ "sort" := s ]}) = s.
Proof. unfold sort_of, get. cbn. by rewrite lookup_singleton_eq. Qed.

Lemma singleton_update_inj (k : string) (a b : jsval) :
  ({[ k := a ]} : props) = {[ k := b ]} → a = b.
Proof.
  intros H. apply (f_equal (λ m : props, m !! k)) in H.
  rewrite !lookup_singleton_eq in H. congruence.
Qed.

(** ** The sort toggle *)

(** Each of the three branches of [handleSort], by the test that selects it. *)
Lemma handleSort_ascending (filters : obj) (c : string) :
  sort_of filters = JStr c →
  handleSort filters c = ([OnFilterChange {[ "sort" := JStr ("-" +:+ c) ]}], Normal tt).
Proof.
  intros Hs. unfold handleSort, strict_eq.
  by rewrite bool_decide_eq_true_2.
Qed.

Lemma handleSort_descending (filters : obj) (c : string) :
  sort_of filters = JStr ("-" +:+ c) →
  handleSort filters c = ([OnFilterChange {[ "sort" := JStr "-created_at" ]}], Normal tt).
Proof.
  intros Hs. unfold handleSort, strict_eq. rewrite Hs.
  rewrite bool_decide_eq_false_2.
  - by rewrite bool_decide_eq_true_2.
  - intros [= H]. by apply negated_ne in H.
Qed.

Lemma handleSort_other (filters : obj) (c : string) :
  sort_of filters ≠ JStr c →
  sort_of filters ≠ JStr ("-" +:+ c) →
  handleSort filters c = ([OnFilterChange {[ "sort" := JStr c ]}], Normal tt).
Proof.
  intros H1 H2. unfold handleSort, strict_eq.
  by rewrite !bool_decide_eq_false_2.
Qed.

(** The handler reads nothing of the filters but [filters.sort], and what it
    emits is the step [click_sort] of the sort descriptor. *)
Lemma handleSort_click_sort (filters : obj) (c : string) :
  handleSort filters c =
  ([OnFilterChange {[ "sort" := click_sort c (sort_of filters) ]}], Normal tt).
Proof.
  unfold click_sort, emitted, trace, handleSort.
  rewrite !sort_of_singleton. cbn.
  by rewrite get_singleton.
Qed.

Lemma click_sort_ascending (c : string) : click_sort c (JStr c) = JStr ("-" +:+ c).
Proof.
  unfold click_sort.
  rewrite handleSort_ascending by apply sort_of_singleton.
  apply get_singleton.
Qed.

Lemma click_sort_descending (c : string) :
  click_sort c (JStr ("-" +:+ c)) = JStr "-created_at".
Proof.
  unfold click_sort.
  rewrite handleSort_descending by apply sort_of_singleton.
  apply get_singleton.
Qed.

Lemma click_sort_other (c : string) (s : jsval) :
  s ≠ JStr c → s ≠ JStr ("-" +:+ c) → click_sort c s = JStr c.
Proof.
  intros H1 H2. unfold click_sort.
  rewrite handleSort_other by by rewrite sort_of_singleton.
  apply get_singleton.
Qed.

(** C1: for every column [c], [handleSort] emits exactly one filter update,
    whose [sort] is ["-" + c] when the current sort is [c], ["-created_at"]
    when the current sort is ["-" + c], and [c] for every other current
    sort, [undefined] included. *)
Theorem handleSort_three_cases (filters : obj) (c : string) :
  (sort_of filters = JStr c →
   handleSort filters c =
   ([OnFilterChange {[ "sort" := JStr ("-" +:+ c) ]}], Normal tt)) ∧
  (sort_of filters = JStr ("-" +:+ c) →
   handleSort filters c =
   ([OnFilterChange {[ "sort" := JStr "-created_at" ]}], Normal tt)) ∧
  (sort_of filters ≠ JStr c → sort_of filters ≠ JStr ("-" +:+ c) →
   handleSort filters c =
   ([OnFilterChange {[ "sort" := JStr c ]}], Normal tt)).
Proof.
  split; [| split].
  - apply handleSort_ascending.
  - apply handleSort_descending.
  - apply handleSort_other.
Qed.

Lemma handleSort_three_cases_witness :
  handleSort (Obj 1%positive {[ "sort" := JStr "username" ]}) "username" =
  ([OnFilterChange {[ "sort" := JStr "-username" ]}], Normal tt) ∧
  handleSort (Obj 1%positive {[ "sort" := JStr "-username" ]}) "username" =
  ([OnFilterChange {[ "sort" := JStr "-created_at" ]}], Normal tt) ∧
  handleSort (Obj 1%positive ∅) "username" =
  ([OnFilterChange {[ "sort" := JStr "username" ]}], Normal tt).
Proof.
  split; [| split].
  - apply (proj1 (handleSort_three_cases
      (Obj 1%positive {[ "sort" := JStr "username" ]}) "username")).
    vm_compute. reflexivity.
  - apply (proj1 (proj2 (handleSort_three_cases
      (Obj 1%positive {[ "sort" := JStr "-username" ]}) "username"))).
    vm_compute. reflexivity.
  - apply (proj2 (proj2 (handleSort_three_cases (Obj 1%positive ∅) "username")));
      vm_compute; discriminate.
Defined.

(** ** The status filter *)

(** On a string the handler always completes with one filter update. *)
Lemma handleStatusFilter_string (v : string) :
  handleStatusFilter (JStr v) =
  ([OnFilterChange
      {[ "status" :=
           if bool_decide (0 < String.length v)%nat
           then (if bool_decide (JStr v = JStr "0") then JStr "" else JStr v)
           else JUndefined ]}],
   Normal tt).
Proof. reflexivity. Qed.

Lemma nonempty_length (v : string) : v ≠ "" → (0 < String.length v)%nat.
Proof. destruct v; [done | cbn; lia]. Qed.

Lemma handleStatusFilter_passthrough (v : string) :
  v ≠ "" → v ≠ "0" →
  handleStatusFilter (JStr v) = ([OnFilterChange {[ "status" := JStr v ]}], Normal tt).
Proof.
  intros Hne H0. rewrite handleStatusFilter_string.
  rewrite bool_decide_eq_true_2 by by apply nonempty_length.
  rewrite bool_decide_eq_false_2; [done | congruence].
Qed.

(** On [undefined] the read of [value.length] throws before any call. *)
Lemma handleStatusFilter_undefined :
  handleStatusFilter JUndefined = ([], Throw TypeError).
Proof. reflexivity. Qed.

(** C2, as the claim states it, fails: on the sentinel ["0"] the update that
    the handler emits does not hold [undefined] in its [status] field. *)
Lemma handleStatusFilter_sentinel_not_undefined :
  ¬ (∃ p : props,
       trace (handleStatusFilter (JStr "0")) = [OnFilterChange p] ∧
       get p "status" = JUndefined).
Proof.
  intros (p & Htr & Hp).
  change (handleStatusFilter (JStr "0"))
    with ([OnFilterChange {[ "status" := JStr "" ]}], Normal tt : completion unit)
    in Htr.
  unfold trace in Htr. cbn [fst] in Htr.
  assert (p = {[ "status" := JStr "" ]}) as -> by congruence.
  rewrite get_singleton in Hp. discriminate Hp.
Qed.

(** C2, amended: on the sentinel ["0"] the handler emits exactly one filter
    update, whose [status] field is the empty string. *)
Theorem handleStatusFilter_sentinel_empty_string :
  handleStatusFilter (JStr "0") =
  ([OnFilterChange {[ "status" := JStr "" ]}], Normal tt).
Proof. reflexivity. Qed.

(** C3: on the empty string the handler emits a filter update with [status]
    undefined; on every other string that is not the sentinel ["0"] it emits
    a filter update whose [status] is that string. *)
Theorem handleStatusFilter_empty_and_passthrough :
  handleStatusFilter (JStr "") =
  ([OnFilterChange {[ "status" := JUndefined ]}], Normal tt) ∧
  ∀ v : string, v ≠ "" → v ≠ "0" →
    handleStatusFilter (JStr v) =
    ([OnFilterChange {[ "status" := JStr v ]}], Normal tt).
Proof.
  split; [reflexivity |].
  apply handleStatusFilter_passthrough.
Qed.

Lemma handleStatusFilter_empty_and_passthrough_witness :
  handleStatusFilter (JStr "1") =
  ([OnFilterChange {[ "status" := JStr "1" ]}], Normal tt).
Proof.
  apply (proj2 handleStatusFilter_empty_and_passthrough "1"); discriminate.
Defined.

(** C10: the sentinel is matched by equality of strings: a non-empty string
    is passed through unchanged exactly when it is not the string ["0"]. *)
Theorem handleStatusFilter_sentinel_exact (v : string) :
  v ≠ "" →
  (handleStatusFilter (JStr v) =
   ([OnFilterChange {[ "status" := JStr v ]}], Normal tt)
   ↔ v ≠ "0").
Proof.
  intros Hne. split.
  - intros H ->. rewrite handleStatusFilter_sentinel_empty_string in H.
    assert (({[ "status" := JStr "" ]} : props) = {[ "status" := JStr "0" ]})
      as Hm by congruence.
    apply singleton_update_inj in Hm. discriminate Hm.
  - by apply handleStatusFilter_passthrough.
Qed.

Lemma handleStatusFilter_sentinel_exact_witness :
  handleStatusFilter (JStr "00") =
  ([OnFilterChange {[ "status" := JStr "00" ]}], Normal tt) ∧
  handleStatusFilter (JStr " 0") =
  ([OnFilterChange {[ "status" := JStr " 0" ]}], Normal tt).
Proof.
  split.
  - apply (handleStatusFilter_sentinel_exact "00"); discriminate.
  - apply (handleStatusFilter_sentinel_exact " 0"); discriminate.
Defined.

(** ** The form of the sort descriptor *)

Lemma valid_sort_bare (s : string) : is_bare s = true → valid_sort s = true.
Proof. unfold valid_sort. by intros ->. Qed.

Lemma valid_sort_negated (s : string) : is_bare s = true → valid_sort ("-" +:+ s) = true.
Proof.
  intros Hs. rewrite negated_cons. unfold valid_sort. cbn [is_bare].
  rewrite Hs. by rewrite bool_decide_eq_true_2.
Qed.

Lemma valid_sort_double_negation (f : string) : valid_sort ("--" +:+ f) = false.
Proof. reflexivity. Qed.

(** A column name that already carries the marker does leave the form. *)
Example handleSort_negated_column :
  handleSort (Obj 1%positive {[ "sort" := JStr "-x" ]}) "-x" =
  ([OnFilterChange {[ "sort" := JStr "--x" ]}], Normal tt).
Proof. apply handleSort_ascending. apply sort_of_singleton. Qed.

(** C6: for a bare column name and any current sort, the [sort] that
    [handleSort] emits is a bare field name or one negation marker followed
    by a bare field name; in particular it is never doubly negated. *)
Theorem handleSort_preserves_sort_form (filters : obj) (c : string) :
  is_bare c = true →
  ∃ s : string,
    handleSort filters c = ([OnFilterChange {[ "sort" := JStr s ]}], Normal tt) ∧
    valid_sort s = true ∧
    ∀ f : string, s ≠ "--" +:+ f.
Proof.
  intros Hc.
  assert (∃ s : string,
    handleSort filters c = ([OnFilterChange {[ "sort" := JStr s ]}], Normal tt) ∧
    valid_sort s = true) as (s & Hrun & Hs).
  { destruct (decide (sort_of filters = JStr c)) as [Ha | Ha].
    - exists ("-" +:+ c). split; [by apply handleSort_ascending |].
      by apply valid_sort_negated.
    - destruct (decide (sort_of filters = JStr ("-" +:+ c))) as [Hd | Hd].
      + exists "-created_at". split; [by apply handleSort_descending | reflexivity].
      + exists c. split; [by apply handleSort_other |].
        by apply valid_sort_bare. }
  exists s. split; [done |]. split; [done |].
  intros f ->. by rewrite valid_sort_double_negation in Hs.
Qed.

Lemma handleSort_preserves_sort_form_witness :
  ∃ s : string,
    handleSort (Obj 1%positive {[ "sort" := JStr "username" ]}) "username" =
    ([OnFilterChange {[ "sort" := JStr s ]}], Normal tt) ∧
    valid_sort s = true ∧
    ∀ f : string, s ≠ "--" +:+ f.
Proof.
  apply (handleSort_preserves_sort_form
           (Obj 1%positive {[ "sort" := JStr "username" ]}) "username").
  reflexivity.
Defined.

(** ** The cycle of the created_at column *)

Lemma click_created_at_iter (n : nat) :
  Nat.iter n (click_sort "created_at") (JStr "-created_at") = JStr "-created_at".
Proof.
  induction n as [| n IH]; [done |].
  rewrite Nat.iter_succ, IH. apply (click_sort_descending "created_at").
Qed.

Lemma click_returns_to_ascending (c : string) :
  c ≠ "created_at" →
  ∃ n : nat, (n ≤ 2)%nat ∧ Nat.iter n (click_sort c) (JStr ("-" +:+ c)) = JStr c.
Proof.
  intros Hc. destruct (decide (c = "-created_at")) as [-> | Hn].
  - exists 1. split; [lia |]. apply (click_sort_descending "-created_at").
  - exists 2. split; [lia |]. rewrite !Nat.iter_succ. cbn [Nat.iter nat_rect].
    rewrite click_sort_descending. apply click_sort_other.
    + congruence.
    + intros [= H]. apply Hc. symmetry. by apply negated_inj.
Qed.

(** C8: with current sort ["-created_at"], [handleSort] on the column
    [created_at] emits ["-created_at"] again, so clicking that column any
    number of times leaves the sort at ["-created_at"] and never reaches
    ascending [created_at]; every other column is back at ascending within
    two clicks from its descending state. *)
Theorem created_at_descending_fixed_point :
  (∀ filters : obj,
     sort_of filters = JStr "-created_at" →
     handleSort filters "created_at" =
     ([OnFilterChange {[ "sort" := JStr "-created_at" ]}], Normal tt)) ∧
  (∀ n : nat,
     Nat.iter n (click_sort "created_at") (JStr "-created_at") = JStr "-created_at" ∧
     Nat.iter n (click_sort "created_at") (JStr "-created_at") ≠ JStr "created_at") ∧
  (∀ c : string,
     c ≠ "created_at" →
     ∃ n : nat, (n ≤ 2)%nat ∧ Nat.iter n (click_sort c) (JStr ("-" +:+ c)) = JStr c).
Proof.
  split; [| split].
  - intros filters Hs. by apply (handleSort_descending filters "created_at").
  - intros n. rewrite click_created_at_iter. by split.
  - apply click_returns_to_ascending.
Qed.

Lemma created_at_descending_fixed_point_witness :
  handleSort (Obj 1%positive {[ "sort" := JStr "-created_at" ]}) "created_at" =
  ([OnFilterChange {[ "sort" := JStr "-created_at" ]}], Normal tt) ∧
  ∃ n : nat, (n ≤ 2)%nat ∧
    Nat.iter n (click_sort "username") (JStr ("-" +:+ "username")) = JStr "username".
Proof.
  split.
  - apply (proj1 created_at_descending_fixed_point
             (Obj 1%positive {[ "sort" := JStr "-created_at" ]})).
    vm_compute. reflexivity.
  - apply (proj2 (proj2 created_at_descending_fixed_point) "username").
    discriminate.
Defined.

(** ** The fields a handler writes *)

(** C9: [handleSort] always calls [onFilterChange] once, with a record
    whose only field is [sort]; [handleStatusFilter] on a string always
    calls it once, with a record whose only field is [status]; and whatever
    its argument, no call of [handleStatusFilter] is anything else. *)
Theorem handlers_write_own_field :
  (∀ (filters : obj) (c : string),
     ∃ p : props,
       handleSort filters c = ([OnFilterChange p], Normal tt) ∧
       dom p = {[ "sort" ]}) ∧
  (∀ v : string,
     ∃ p : props,
       handleStatusFilter (JStr v) = ([OnFilterChange p], Normal tt) ∧
       dom p = {[ "status" ]}) ∧
  (∀ (value : jsval) (c : call),
     c ∈ trace (handleStatusFilter value) →
     ∃ p : props, c = OnFilterChange p ∧ dom p = {[ "status" ]}).
Proof.
  split; [| split].
  - intros filters c. eexists. split; [apply handleSort_click_sort |].
    apply dom_singleton_L.
  - intros v. eexists. split; [apply handleStatusFilter_string |].
    apply dom_singleton_L.
  - intros [| v] c.
    + rewrite handleStatusFilter_undefined. unfold trace. cbn [fst].
      by intros ?%elem_of_nil.
    + rewrite handleStatusFilter_string. unfold trace. cbn [fst].
      intros ->%list_elem_of_singleton.
      eexists. split; [done |]. apply dom_singleton_L.
Qed.

Lemma handlers_write_own_field_witness :
  ∃ p : props,
    OnFilterChange {[ "status" := JStr "1" ]} = OnFilterChange p ∧
    dom p = {[ "status" ]}.
Proof.
  apply (proj2 (proj2 handlers_write_own_field) (JStr "1")).
  vm_compute. left.
Defined.

(** ** The column builder and the render *)

Lemma setupColumns_keys (schema : list (string * bool)) (a : setupColumnsArgs) :
  ∃ cols : list column,
    setupColumns schema a = ([], Normal cols) ∧ key <$> cols = schema.*1.
Proof.
  eexists. split; [reflexivity |].
  rewrite <- list_fmap_compose. by apply list_fmap_ext.
Qed.

Section Lifecycle.

Context {User : Type}.
Variable t : string → string.
Variable dir : direction.
Variable schema : list (string * bool).

Implicit Types (st : @dashboard User) (h : hooks).

Lemma UsersTable_completes st h :
  ∃ r : rendered,
    UsersTable t dir schema st h = ([], Normal r) ∧
    memo r = {| effect_deps := Some [filters st] |}.
Proof. eexists. split; reflexivity. Qed.

Lemma commit_run st h :
  commit t dir schema st h =
  (if effect_runs [filters st] h then [RefetchUsers] else [],
   Normal {| effect_deps := Some [filters st] |}).
Proof.
  unfold commit, UsersTable, setupColumns, useEffect, effect_runs.
  destruct (effect_deps h) as [old |]; [| reflexivity].
  cbn. by destruct (deps_changed old [filters st]).
Qed.

Lemma effect_runs_after (f f' : obj) :
  effect_runs [f'] {| effect_deps := Some [f] |} = negb (Object_is f f').
Proof. unfold effect_runs, deps_changed. cbn. apply orb_false_r. Qed.

Lemma updates_app (sts1 sts2 : list (@dashboard User)) h :
  updates t dir schema (sts1 ++ sts2)%list h =
  (updates t dir schema sts1 h ≫= updates t dir schema sts2).
Proof.
  revert h. induction sts1 as [| st sts1 IH]; intros h.
  - cbn [app updates]. by rewrite js_bind_ret_l.
  - cbn [app updates]. rewrite js_bind_assoc, commit_run.
    cbn [mbind js_bind]. by rewrite IH.
Qed.

(** Every render of a mounted component completes, and the dependencies it
    leaves behind are the filters of the last snapshot rendered. *)
Lemma updates_result (sts : list (@dashboard User)) h :
  ∃ tr : list call,
    updates t dir schema sts h =
    (tr, Normal (from_option (λ st, {| effect_deps := Some [filters st] |}) h (last sts))).
Proof.
  revert h. induction sts as [| st sts IH]; intros h.
  - by exists [].
  - cbn [updates]. rewrite commit_run. cbn [mbind js_bind].
    destruct (IH {| effect_deps := Some [filters st] |}) as [tr ->].
    eexists. f_equal. f_equal.
    rewrite last_cons. by destruct (last sts).
Qed.

Lemma lifetime_result (st0 : @dashboard User) (sts : list (@dashboard User)) :
  ∃ tr : list call,
    lifetime t dir schema st0 sts =
    (tr, Normal {| effect_deps := Some [filters (default st0 (last sts))] |}).
Proof.
  unfold lifetime, mount. rewrite commit_run. cbn [mbind js_bind].
  destruct (updates_result sts {| effect_deps := Some [filters st0] |}) as [tr ->].
  eexists. f_equal. f_equal. by destruct (last sts).
Qed.

Lemma lifetime_snoc (st0 : @dashboard User) (sts : list (@dashboard User)) st' :
  lifetime t dir schema st0 (sts ++ [st'])%list =
  (lifetime t dir schema st0 sts ≫= commit t dir schema st').
Proof.
  unfold lifetime. rewrite js_bind_assoc. unfold mount.
  rewrite commit_run. cbn [mbind js_bind].
  rewrite updates_app.
  destruct (updates t dir schema sts _) as [tr [h | e]]; [| done].
  cbn [mbind js_bind updates]. rewrite commit_run.
  cbn. by rewrite app_nil_r.
Qed.

(** A render whose filters are the object of the render before it issues
    no request. *)
Lemma no_refetch_same_reference (st0 : @dashboard User) (sts : list (@dashboard User)) st' :
  Object_is (filters (default st0 (last sts))) (filters st') = true →
  trace (lifetime t dir schema st0 (sts ++ [st'])%list) =
  trace (lifetime t dir schema st0 sts).
Proof.
  intros Hsame. rewrite lifetime_snoc.
  destruct (lifetime_result st0 sts) as [tr Hrun].
  rewrite (trace_bind_normal _ _ _ _ Hrun), Hrun.
  rewrite commit_run, effect_runs_after, Hsame.
  unfold trace. cbn. apply app_nil_r.
Qed.

(** C4: after the mount and any number of renders, a render whose filters
    object is another object than that of the render before it, whatever
    the fields of the two, adds exactly one call to the trace of the
    component, and that call is [refetchUsers]. *)
Theorem refetch_once_per_filters_change
    (st0 : @dashboard User) (sts : list (@dashboard User)) st' :
  Object_is (filters (default st0 (last sts))) (filters st') = false →
  trace (lifetime t dir schema st0 (sts ++ [st'])%list) =
  (trace (lifetime t dir schema st0 sts) ++ [RefetchUsers])%list.
Proof.
  intros Hchanged. rewrite lifetime_snoc.
  destruct (lifetime_result st0 sts) as [tr Hrun].
  rewrite (trace_bind_normal _ _ _ _ Hrun), Hrun.
  by rewrite commit_run, effect_runs_after, Hchanged.
Qed.

(** C5: mounting the component, whatever the store holds, completes with
    exactly one call, [refetchUsers], and nothing else happens in that
    step. *)
Theorem mount_refetches_once st :
  mount t dir schema st =
  ([RefetchUsers], Normal {| effect_deps := Some [filters st] |}).
Proof. unfold mount. by rewrite commit_run. Qed.

(** C7: the column builder completes, without a call to the store, for
    every argument record, so for every filters record, one whose [sort] is
    undefined included; it gives one descriptor per column, in order; and
    the render of the component, which builds that argument record from its
    handlers and the current filters, completes as well. *)
Theorem setupColumns_never_throws :
  (∀ (sch : list (string * bool)) (a : setupColumnsArgs),
     ∃ cols : list column,
       setupColumns sch a = ([], Normal cols) ∧ key <$> cols = sch.*1) ∧
  (∀ (sch : list (string * bool)) (tr : string → string) (d : direction)
     (l : loc) (hS : string → js unit) (hF : jsval → js unit),
     completes (setupColumns sch
       {| arg_t := tr; arg_dir := d; arg_handleSort := hS;
          arg_filters := Obj l ∅; arg_handleStatusFilter := hF |}) = true) ∧
  (∀ st h, completes (UsersTable t dir schema st h) = true).
Proof.
  split; [| split].
  - apply setupColumns_keys.
  - reflexivity.
  - reflexivity.
Qed.

End Lifecycle.

Lemma refetch_once_per_filters_change_witness :
  trace (lifetime (User := unit) id Ltr [("username", false); ("status", true)]
           (Dashboard (Obj 1%positive ∅) [])
           ([Dashboard (Obj 2%positive {[ "sort" := JStr "username" ]}) []] ++
            [Dashboard (Obj 3%positive {[ "sort" := JStr "username" ]}) []])%list) =
  (trace (lifetime (User := unit) id Ltr [("username", false); ("status", true)]
            (Dashboard (Obj 1%positive ∅) [])
            [Dashboard (Obj 2%positive {[ "sort" := JStr "username" ]}) []])
   ++ [RefetchUsers])%list.
Proof.
  apply (refetch_once_per_filters_change (User := unit) id Ltr
           [("username", false); ("status", true)]
           (Dashboard (Obj 1%positive ∅) [])
           [Dashboard (Obj 2%positive {[ "sort" := JStr "username" ]}) []]
           (Dashboard (Obj 3%positive {[ "sort" := JStr "username" ]}) [])).
  reflexivity.
Defined.

(** * Further properties of the handlers and of the effect *)

(** ** Clicks on one column *)

Lemma emit_sort_inj (a b : jsval) :
  ([OnFilterChange {[ "sort" := a ]}], Normal tt : completion unit) =
  ([OnFilterChange {[ "sort" := b ]}], Normal tt) →
  a = b.
Proof.
  intros H. apply (singleton_update_inj "sort").
  generalize dependent ({[ "sort" := a ]} : props).
  generalize dependent ({[ "sort" := b ]} : props).
  congruence.
Qed.

Lemma created_at_not_negated (c : string) : "created_at" ≠ "-" +:+ c.
Proof. rewrite negated_cons. discriminate. Qed.

Lemma default_negated (c : string) :
  JStr "-created_at" = JStr ("-" +:+ c) → c = "created_at".
Proof.
  intros H. assert ("-created_at" = "-" +:+ c) as H' by congruence.
  symmetry. exact (negated_inj "created_at" c H').
Qed.

Lemma click_sort_default (c : string) :
  c ≠ "created_at" → c ≠ "-created_at" →
  click_sort c (JStr "-created_at") = JStr c.
Proof.
  intros H1 H2. apply click_sort_other.
  - congruence.
  - by intros H%default_negated.
Qed.

(** The state after one click on [c] is one of three. *)
Lemma click_sort_range (c : string) (s : jsval) :
  click_sort c s = JStr ("-" +:+ c) ∧ s = JStr c ∨
  click_sort c s = JStr "-created_at" ∧ s = JStr ("-" +:+ c) ∨
  click_sort c s = JStr c ∧ s ≠ JStr c ∧ s ≠ JStr ("-" +:+ c).
Proof.
  destruct (decide (s = JStr c)) as [-> | Ha].
  { left. split; [apply click_sort_ascending | done]. }
  destruct (decide (s = JStr ("-" +:+ c))) as [-> | Hd].
  { right. left. split; [apply click_sort_descending | done]. }
  right. right. split; [by apply click_sort_other | done].
Qed.

(** X1: a click leaves the sort as it is in one case only: the column is
    [created_at] and the current sort is ["-created_at"].  Every other click
    emits a sort that differs from the current one. *)
Theorem handleSort_unchanged_iff (filters : obj) (c : string) :
  handleSort filters c =
  ([OnFilterChange {[ "sort" := sort_of filters ]}], Normal tt)
  ↔ c = "created_at" ∧ sort_of filters = JStr "-created_at".
Proof.
  rewrite handleSort_click_sort. split.
  - intros H%emit_sort_inj.
    destruct (click_sort_range c (sort_of filters))
      as [[Hc Hs] | [[Hc Hs] | (Hc & Hs1 & Hs2)]].
    + rewrite Hs in H. rewrite click_sort_ascending in H.
      injection H as H. by apply negated_ne in H.
    + rewrite Hs in H. rewrite click_sort_descending in H.
      rewrite Hs. apply default_negated in H. by subst c.
    + congruence.
  - intros [-> ->].
    by rewrite (click_sort_descending "created_at"
                  : click_sort "created_at" (JStr "-created_at") = JStr "-created_at").
Qed.

Lemma handleSort_unchanged_iff_witness :
  handleSort (Obj 1%positive {[ "sort" := JStr "-created_at" ]}) "created_at" =
  ([OnFilterChange
      {[ "sort" := sort_of (Obj 1%positive {[ "sort" := JStr "-created_at" ]}) ]}],
   Normal tt).
Proof.
  apply (proj2 (handleSort_unchanged_iff
                  (Obj 1%positive {[ "sort" := JStr "-created_at" ]}) "created_at")).
  split; reflexivity.
Defined.

(** X2: for a column other than [created_at] and ["-created_at"], the clicks
    on it cycle with period three, ascending, descending, default: whatever
    the sort was, the sort reached by the first click is reached again by
    three more clicks, and by no fewer. *)
Theorem click_sort_period_three (c : string) (s : jsval) :
  c ≠ "created_at" → c ≠ "-created_at" →
  Nat.iter 3 (click_sort c) (click_sort c s) = click_sort c s ∧
  click_sort c (click_sort c s) ≠ click_sort c s ∧
  Nat.iter 2 (click_sort c) (click_sort c s) ≠ click_sort c s.
Proof.
  intros H1 H2. cbn [Nat.iter nat_rect].
  assert (JStr ("-" +:+ c) ≠ JStr c) as Hn
    by (intros [= H]; by apply negated_ne in H).
  assert (JStr "-created_at" ≠ JStr c) as Hd by congruence.
  assert (JStr "-created_at" ≠ JStr ("-" +:+ c)) as Hd'
    by by intros H%default_negated.
  destruct (click_sort_range c s) as [[-> _] | [[-> _] | [-> _]]].
  - rewrite click_sort_descending, click_sort_default, click_sort_ascending by done.
    split_and!; congruence.
  - rewrite click_sort_default, click_sort_ascending, click_sort_descending by done.
    split_and!; congruence.
  - rewrite click_sort_ascending, click_sort_descending, click_sort_default by done.
    split_and!; congruence.
Qed.

Lemma click_sort_period_three_witness :
  Nat.iter 3 (click_sort "username") (click_sort "username" JUndefined) =
  click_sort "username" JUndefined ∧
  click_sort "username" (click_sort "username" JUndefined) ≠
  click_sort "username" JUndefined ∧
  Nat.iter 2 (click_sort "username") (click_sort "username" JUndefined) ≠
  click_sort "username" JUndefined.
Proof.
  apply (click_sort_period_three "username" JUndefined); discriminate.
Defined.

(** X3: from every sort, and for every column, at most three clicks on that
    column bring the sort to the default ["-created_at"]. *)
Theorem click_sort_reaches_default (c : string) (s : jsval) :
  ∃ n : nat, (n ≤ 3)%nat ∧ Nat.iter n (click_sort c) s = JStr "-created_at".
Proof.
  destruct (click_sort_range c s) as [[H1 _] | [[H1 _] | [H1 _]]].
  - exists 2. split; [lia |]. cbn [Nat.iter nat_rect].
    rewrite H1. apply click_sort_descending.
  - exists 1. split; [lia |]. exact H1.
  - exists 3. split; [lia |]. cbn [Nat.iter nat_rect].
    rewrite H1, click_sort_ascending. apply click_sort_descending.
Qed.

(** ** What the status filter emits *)

(** The [status] that the handler emits for a string. *)
Lemma handleStatusFilter_cases (v : string) :
  ∃ st : jsval,
    handleStatusFilter (JStr v) = ([OnFilterChange {[ "status" := st ]}], Normal tt) ∧
    (v = "" ∧ st = JUndefined ∨
     v = "0" ∧ st = JStr "" ∨
     v ≠ "" ∧ v ≠ "0" ∧ st = JStr v).
Proof.
  destruct (decide (v = "")) as [-> | Hne].
  { exists JUndefined. split; [reflexivity | by left]. }
  destruct (decide (v = "0")) as [-> | H0].
  { exists (JStr ""). split; [reflexivity | right; by left]. }
  exists (JStr v). split; [by apply handleStatusFilter_passthrough |].
  right. by right.
Qed.

Lemma emit_status_inj (a b : jsval) :
  ([OnFilterChange {[ "status" := a ]}], Normal tt : completion unit) =
  ([OnFilterChange {[ "status" := b ]}], Normal tt) →
  a = b.
Proof.
  intros H. apply (singleton_update_inj "status").
  generalize dependent ({[ "status" := a ]} : props).
  generalize dependent ({[ "status" := b ]} : props).
  congruence.
Qed.

(** X4: whatever its argument, the handler never hands the sentinel ["0"]
    to the store as a status. *)
Theorem handleStatusFilter_never_emits_sentinel (value : jsval) (p : props) :
  OnFilterChange p ∈ trace (handleStatusFilter value) →
  get p "status" ≠ JStr "0".
Proof.
  destruct value as [| v].
  - rewrite handleStatusFilter_undefined. unfold trace. cbn [fst].
    by intros ?%elem_of_nil.
  - destruct (handleStatusFilter_cases v) as (st & -> & Hst).
    unfold trace. cbn [fst]. intros Hp%list_elem_of_singleton.
    assert (p = {[ "status" := st ]}) as -> by congruence.
    rewrite get_singleton.
    destruct Hst as [[_ ->] | [[_ ->] | (_ & H0 & ->)]]; congruence.
Qed.

Lemma handleStatusFilter_never_emits_sentinel_witness :
  get ({[ "status" := JStr "" ]} : props) "status" ≠ JStr "0".
Proof.
  apply (handleStatusFilter_never_emits_sentinel (JStr "0")).
  vm_compute. left.
Defined.

(** X5: for a string, the emitted [status] is undefined exactly for the
    empty string, and is the empty string exactly for the sentinel ["0"]. *)
Theorem handleStatusFilter_clears_iff (v : string) :
  (handleStatusFilter (JStr v) =
   ([OnFilterChange {[ "status" := JUndefined ]}], Normal tt) ↔ v = "") ∧
  (handleStatusFilter (JStr v) =
   ([OnFilterChange {[ "status" := JStr "" ]}], Normal tt) ↔ v = "0").
Proof.
  destruct (handleStatusFilter_cases v) as (st & Hrun & Hst).
  rewrite Hrun. split; split.
  - intros H%emit_status_inj.
    destruct Hst as [[? _] | [[_ ?] | (_ & _ & ?)]]; [done | congruence ..].
  - intros ->. destruct Hst as [[_ ->] | [[? _] | (? & _)]]; done.
  - intros H%emit_status_inj.
    destruct Hst as [[_ ?] | [[? _] | (? & _ & ?)]]; [congruence | done | congruence].
  - intros ->. destruct Hst as [[? _] | [[_ ->] | (_ & ? & _)]]; done.
Qed.

(** X6: distinct strings give distinct filter updates: the update tells
    which value was selected. *)
Theorem handleStatusFilter_injective (v w : string) :
  v ≠ w → handleStatusFilter (JStr v) ≠ handleStatusFilter (JStr w).
Proof.
  intros Hvw.
  destruct (handleStatusFilter_cases v) as (a & -> & Ha).
  destruct (handleStatusFilter_cases w) as (b & -> & Hb).
  intros H%emit_status_inj. subst b.
  destruct Ha as [[? ->] | [[? ->] | (? & ? & ->)]];
    destruct Hb as [[? ?] | [[? ?] | (? & ? & ?)]]; congruence.
Qed.

Lemma handleStatusFilter_injective_witness :
  handleStatusFilter (JStr "0") ≠ handleStatusFilter (JStr "").
Proof.
  apply (handleStatusFilter_injective "0" ""). discriminate.
Defined.



(** ** The requests of a whole run of renders *)

Section Requests.

Context {User : Type}.
Variable t : string → string.
Variable dir : direction.
Variable schema : list (string * bool).

Lemma mount_run (st : @dashboard User) :
  mount t dir schema st =
  ([RefetchUsers], Normal {| effect_deps := Some [filters st] |}).
Proof. unfold mount. by rewrite commit_run. Qed.

Lemma updates_trace (sts : list (@dashboard User)) (f : obj) :
  trace (updates t dir schema sts {| effect_deps := Some [f] |}) =
  replicate (reference_changes f (filters <$> sts)) RefetchUsers.
Proof.
  revert f. induction sts as [| st sts IH]; intros f; [done |].
  cbn [updates fmap list_fmap reference_changes].
  rewrite (trace_bind_normal _ _ _ _ (commit_run t dir schema st _)).
  rewrite IH, effect_runs_after, replicate_add.
  by destruct (Object_is f (filters st)).
Qed.

(** X8: over a mount followed by any renders, the calls of the component to
    the store are requests to refetch and nothing else, one for the mount
    and one for each render whose filters object is not the object of the
    render before it. *)
Theorem lifetime_requests (st0 : @dashboard User) (sts : list (@dashboard User)) :
  trace (lifetime t dir schema st0 sts) =
  replicate (S (reference_changes (filters st0) (filters <$> sts))) RefetchUsers.
Proof.
  unfold lifetime.
  rewrite (trace_bind_normal _ _ _ _ (mount_run st0)).
  by rewrite updates_trace.
Qed.

(** X9: a render whose filters object is the object of the render before
    it, even with other fields, as after a change made in place, issues no
    request. *)
Theorem no_refetch_on_same_object
    (st0 : @dashboard User) (sts : list (@dashboard User)) (st' : @dashboard User) :
  addr (filters st') = addr (filters (default st0 (last sts))) →
  trace (lifetime t dir schema st0 (sts ++ [st'])%list) =
  trace (lifetime t dir schema st0 sts).
Proof.
  intros Haddr. apply no_refetch_same_reference.
  unfold Object_is. by apply bool_decide_eq_true_2.
Qed.

End Requests.

Lemma no_refetch_on_same_object_witness :
  trace (lifetime (User := unit) id Ltr [("username", false); ("status", true)]
           (Dashboard (Obj 1%positive ∅) [])
           ([Dashboard (Obj 2%positive {[ "sort" := JStr "username" ]}) []] ++
            [Dashboard (Obj 2%positive {[ "sort" := JStr "-username" ]}) []])%list) =
  trace (lifetime (User := unit) id Ltr [("username", false); ("status", true)]
           (Dashboard (Obj 1%positive ∅) [])
           [Dashboard (Obj 2%positive {[ "sort" := JStr "username" ]}) []]).
Proof.
  apply (no_refetch_on_same_object (User := unit) id Ltr
           [("username", false); ("status", true)]
           (Dashboard (Obj 1%positive ∅) [])
           [Dashboard (Obj 2%positive {[ "sort" := JStr "username" ]}) []]
           (Dashboard (Obj 2%positive {[ "sort" := JStr "-username" ]}) [])).
  reflexivity.
Defined.
